(** * auto-install: a shallow embedding of [src/helpers.js]

    Strings are Stdlib [string]s.  File contents are modelled as ASCII
    text; the only line terminators of the regular expression's [.] that
    occur in ASCII are LF and CR.  Effects (spinners, console output, shell
    commands, HTTP requests) are recorded in a small writer/exception
    monad.  External collaborators ([fs.readFileSync], [glob.sync],
    [is-builtin-module], [sync-exec], [sync-request]) are parameters. *)

From Stdlib Require Import String Ascii List ZArith Bool Lia.
From Stdlib Require Import DecimalString DecimalNat Permutation.
Import ListNotations.
Open Scope list_scope.
Open Scope string_scope.

(** ** Data model *)

(** A module object [{name, dev}]. *)
Record ModuleRef := mkModule { name : string; dev : bool }.

(** The arguments the helpers receive: a bare string or a module object.
    Reading the property [name] of a string primitive gives [undefined]. *)
Inductive arg := AStr (s : string) | AMod (m : ModuleRef).

Definition prop_name (a : arg) : option string :=
  match a with
  | AStr _ => None
  | AMod m => Some (name m)
  end.

(** [String(v)] for a value that is a string or [undefined]. *)
Definition js_to_string (v : option string) : string :=
  match v with
  | None => "undefined"
  | Some s => s
  end.

(** ** JavaScript string and array primitives *)

(** [s.substring(a, b)]: both indices clamped to [0, length], swapped when
    [a > b]. *)
Definition js_clamp (len : nat) (i : Z) : nat :=
  Z.to_nat (Z.max 0 (Z.min i (Z.of_nat len))).

Definition js_substring (s : string) (a b : Z) : string :=
  let a' := js_clamp (String.length s) a in
  let b' := js_clamp (String.length s) b in
  let lo := Nat.min a' b' in
  let hi := Nat.max a' b' in
  String.substring lo (hi - lo) s.

(** [s.substring(a)]. *)
Definition js_substring_from (s : string) (a : Z) : string :=
  js_substring s a (Z.of_nat (String.length s)).

(** [s.replace(pat, rep)] with a string pattern: the first occurrence
    only. *)
Fixpoint js_replace (pat rep s : string) : string :=
  if String.prefix pat s then rep ++ String.substring (String.length pat)
                                   (String.length s - String.length pat) s
  else match s with
       | EmptyString => EmptyString
       | String c s' => String c (js_replace pat rep s')
       end.

(** [s.indexOf(needle)] on strings: [-1] when absent. *)
Definition js_str_indexOf (needle hay : string) : Z :=
  match String.index 0 needle hay with
  | Some n => Z.of_nat n
  | None => (-1)%Z
  end.

(** [arr.indexOf(x)] on an array of strings, compared with [===]. *)
Fixpoint js_arr_indexOf (x : string) (l : list string) : Z :=
  match l with
  | [] => (-1)%Z
  | y :: l' => if String.eqb y x then 0%Z
               else match js_arr_indexOf x l' with
                    | (-1)%Z => (-1)%Z
                    | n => (n + 1)%Z
                    end
  end.

(** ** [isValidModule] *)

(** The character class [[a-z0-9-_]]. *)
Definition name_char (c : ascii) : bool :=
  let n := nat_of_ascii c in
  (Nat.leb 97 n && Nat.leb n 122) || (Nat.leb 48 n && Nat.leb n 57)
  || Nat.eqb n 45 || Nat.eqb n 95.

(** [new RegExp("^([a-z0-9-_]{1,})$").test(s)]. *)
Fixpoint all_name_chars (s : string) : bool :=
  match s with
  | EmptyString => true
  | String c s' => name_char c && all_name_chars s'
  end.

Definition name_regex_test (s : string) : bool :=
  negb (String.eqb s EmptyString) && all_name_chars s.

(** [let isValidModule = ({name, dev}) => regex.test(name)]: the argument
    is destructured, so the tested value is the argument's [name]
    property, converted to a string. *)
Definition isValidModule (a : arg) : bool :=
  name_regex_test (js_to_string (prop_name a)).

(** ** [getModulesFromFile] *)

Definition is_line_terminator (c : ascii) : bool :=
  Nat.eqb (nat_of_ascii c) 10 || Nat.eqb (nat_of_ascii c) 13.

Definition require_open : string := "require(".

(** The lazy [(.*?)\)]: the text up to the first [)], which must come
    before any line terminator; returns the captured text and the rest
    after the [)]. *)
Fixpoint find_close (s : string) : option (string * string) :=
  match s with
  | EmptyString => None
  | String c s' =>
      if Ascii.eqb c ")" then Some (EmptyString, s')
      else if is_line_terminator c then None
      else match find_close s' with
           | Some (a, r) => Some (String c a, r)
           | None => None
           end
  end.

(** The successive matches of [/require\((.*?)\)/g], scanning left to
    right; [fuel] bounds the number of positions tried. *)
Fixpoint scan (fuel : nat) (s : string) : list string :=
  match fuel with
  | O => []
  | S f =>
      match s with
      | EmptyString => []
      | String _ s' =>
          if String.prefix require_open s then
            match find_close (String.substring 8 (String.length s - 8) s) with
            | Some (a, r) => (require_open ++ a ++ ")") :: scan f r
            | None => scan f s'
            end
          else scan f s'
      end
  end.

(** All matches of the pattern in a text. *)
Definition all_matches (content : string) : list string :=
  scan (S (String.length content)) content.

(** [content.match(pattern)]: [null] when there is no match. *)
Definition content_match (content : string) : option (list string) :=
  match all_matches content with
  | [] => None
  | ms => Some ms
  end.

(** The loop body: strip the call syntax from one match. *)
Definition strip_match (m : string) : string :=
  let m1 := js_replace "require" EmptyString m in
  let m2 := js_substring_from m1 2 in
  js_substring m2 0 (Z.of_nat (String.length m2) - 2).

Fixpoint push_valid (ms : list string) : list string :=
  match ms with
  | [] => []
  | m :: ms' =>
      let s := strip_match m in
      if isValidModule (AStr s) then s :: push_valid ms'
      else push_valid ms'
  end.

Definition getModulesFromContent (content : string) : list string :=
  match content_match content with
  | None => []
  | Some ms => push_valid ms
  end.

(** [getModulesFromFile(path)]: reads the file with [readFileSync]. *)
Definition getModulesFromFile (readFileSync : string -> string)
  (path : string) : list string :=
  getModulesFromContent (readFileSync path).

(** The double-quote character, as a one-character string. *)
Definition dq : string := String (ascii_of_nat 34) EmptyString.

(** ** [filterRegistryModules] *)

Section Registry.

(** The [is-builtin-module] package. *)
Variable isBuiltInModule : string -> bool.

Definition removeBuiltInModules (modules : list ModuleRef) : list ModuleRef :=
  filter (fun module => negb (isBuiltInModule (name module))) modules.

Definition removeLocalFiles (modules : list ModuleRef) : list ModuleRef :=
  filter (fun module => negb (Z.eqb (js_str_indexOf "./" (name module)) 0))
    modules.

Definition filterRegistryModules (modules : list ModuleRef) : list ModuleRef :=
  removeLocalFiles (removeBuiltInModules modules).

End Registry.

(** ** [diff] *)

Definition getNamesFromModules (modules : list ModuleRef) : list string :=
  map name modules.

Definition diff (first second : list ModuleRef) : list ModuleRef :=
  let namesFromSecond := getNamesFromModules second in
  filter (fun module => Z.ltb (js_arr_indexOf (name module) namesFromSecond) 0)
    first.

(** ** [deduplicate] *)

(** The loop of [deduplicateSimilarModules], with its two accumulators
    [dedupedModules] and [dedupedModuleNames]. *)
Fixpoint dedup_loop (dedupedModules : list ModuleRef)
  (dedupedModuleNames : list string) (modules : list ModuleRef)
  : list ModuleRef :=
  match modules with
  | [] => dedupedModules
  | module :: rest =>
      if Z.eqb (js_arr_indexOf (name module) dedupedModuleNames) (-1) then
        dedup_loop (dedupedModules ++ [module])%list
          (dedupedModuleNames ++ [name module])%list rest
      else dedup_loop dedupedModules dedupedModuleNames rest
  end.

Definition deduplicateSimilarModules (modules : list ModuleRef)
  : list ModuleRef :=
  dedup_loop [] [] modules.

Definition deduplicate (modules : list ModuleRef) : list ModuleRef :=
  let dedupedModules := @nil ModuleRef in
  let testModules := filter (fun module => dev module) modules in
  let dedupedModules :=
    (dedupedModules ++ deduplicateSimilarModules testModules)%list in
  let prodModules := filter (fun module => negb (dev module)) modules in
  let dedupedModules :=
    (dedupedModules ++ deduplicateSimilarModules prodModules)%list in
  dedupedModules.

(** Spec side of the deduplicator: keep each element, then drop every later
    element with the same name. *)
Fixpoint spec_first_by_name (fuel : nat) (l : list ModuleRef)
  : list ModuleRef :=
  match fuel, l with
  | O, _ => []
  | _, [] => []
  | S f, m :: r =>
      m :: spec_first_by_name f
             (filter (fun m' => negb (String.eqb (name m') (name m))) r)
  end.

Definition keep_first_by_name (l : list ModuleRef) : list ModuleRef :=
  spec_first_by_name (List.length l) l.

Definition spec_deduplicate (l : list ModuleRef) : list ModuleRef :=
  (keep_first_by_name (filter dev l)
   ++ keep_first_by_name (filter (fun m => negb (dev m)) l))%list.

(** ** Effects *)

Inductive symbol := SymError | SymWarning | SymSuccess.

Inductive event :=
| SpinnerStart (message color : string)
| SpinnerStop
| ConsoleLog (sym : symbol) (message : string)
| Exec (command : string)
| HttpGet (url : string).

(** Writer monad over the event log, with JavaScript exceptions
    ([None]). *)
Definition M (A : Type) : Type := list event -> list event * option A.

Definition ret {A} (a : A) : M A := fun l => (l, Some a).
Definition bind {A B} (m : M A) (k : A -> M B) : M B :=
  fun l => match m l with
           | (l', Some a) => k a l'
           | (l', None) => (l', None)
           end.
Definition emit (e : event) : M unit := fun l => ((l ++ [e])%list, Some tt).
Definition throw {A} : M A := fun l => (l, None).

Notation "x <- m ;; k" := (bind m (fun x => k))
  (at level 61, m at next level, right associativity).
Notation "m ;;; k" := (bind m (fun _ => k))
  (at level 61, right associativity).

Definition startSpinner (message color : string) : M unit :=
  emit (SpinnerStart message color).

Definition stopSpinner (message : option string) (type : string) : M unit :=
  emit SpinnerStop ;;;
  match message with
  | None => ret tt
  | Some msg =>
      let sym := if String.eqb type "red" then SymError
                 else if String.eqb type "yellow" then SymWarning
                 else SymSuccess in
      emit (ConsoleLog sym msg)
  end.

(** JavaScript values returned by [isModulePopular]. *)
Inductive jsval := JUndefined | JBool (b : bool).

Definition truthy (v : jsval) : bool :=
  match v with
  | JUndefined => false
  | JBool b => b
  end.

Section Effects.

(** [sync-exec]: the exit status of a shell command. *)
Variable syncExec : string -> Z.
(** [sync-request]: whether a GET of the URL returns (true) or throws. *)
Variable request_returns : string -> bool.

Definition runCommand (command : string) : M bool :=
  emit (Exec command) ;;; ret (Z.eqb (syncExec command) 0).

Definition POPULARITY_THRESHOLD : Z := 10000.

(** [isModulePopular({name, dev})]: the callback is handed to
    [sync-request] as its third argument and the function body has no
    [return], so the value is [undefined] whenever the request returns. *)
Definition isModulePopular (a : arg) : M jsval :=
  let url := "https://apa.npmjs.org/downloads/point/last-month/"
             ++ js_to_string (prop_name a) in
  emit (HttpGet url) ;;;
  if request_returns url then ret JUndefined else throw.

Definition installModule (secureMode : bool) (m : ModuleRef) : M unit :=
  let name := name m in
  let dev := dev m in
  startSpinner ("Installing " ++ name) "green" ;;;
  skip <- (if secureMode then
             p <- isModulePopular (AStr name) ;; ret (negb (truthy p))
           else ret false) ;;
  if skip then stopSpinner (Some (name ++ " not trusted")) "yellow"
  else
    let command := "npm install " ++ name ++ " --save" in
    let message := name ++ " installed" in
    let command := if dev then command ++ "-dev" else command in
    let message := if dev then message ++ " in devDependencies" else message in
    success <- runCommand command ;;
    if success then stopSpinner (Some message) "green"
    else stopSpinner (Some (name ++ " installation failed")) "yellow".

Definition uninstallModule (m : ModuleRef) : M unit :=
  let name := name m in
  let dev := dev m in
  startSpinner ("Uninstalling " ++ name) "red" ;;;
  let command := "npm uninstall " ++ name ++ " --save" in
  let message := name ++ " removed" in
  let command := if dev then command ++ "-dev" else command in
  let message := if dev then message ++ " from devDependencies" else message in
  _ <- runCommand command ;;
  stopSpinner (Some message) "red".

End Effects.

(** ** [getFiles] *)

(** [glob.sync(pattern, {ignore})] over the current file system. *)
Definition getFiles (glob_sync : string -> list string -> list string)
  (path : string) : list string :=
  glob_sync "**/*.js" ["node_modules/**/*"].

(** ** Vocabulary of the properties *)

(** The test [dedupedModuleNames.indexOf(name) === -1] as a predicate. *)
Definition not_seen (seen : list string) (m : ModuleRef) : bool :=
  Z.eqb (js_arr_indexOf (name m) seen) (-1).

(** Whether [require(] occurs in a text. *)
Fixpoint has_require (s : string) : bool :=
  String.prefix require_open s
  || match s with
     | EmptyString => false
     | String _ s' => has_require s'
     end.

(** A call argument with no [)] and no line terminator. *)
Fixpoint no_close (s : string) : bool :=
  match s with
  | EmptyString => true
  | String c s' =>
      negb (Ascii.eqb c ")") && negb (is_line_terminator c) && no_close s'
  end.

(** The argument text without its first and last characters. *)
Definition drop_ends (s : string) : string :=
  match s with
  | EmptyString => EmptyString
  | String _ t => String.substring 0 (String.length t - 1) t
  end.

(** A file text: fillers, each followed by one [require("name")]
    expression, then a final filler. *)
Fixpoint build_text (segs : list (string * string)) (last : string)
  : string :=
  match segs with
  | [] => last
  | (fill, n) :: r =>
      fill ++ require_open ++ dq ++ n ++ dq ++ ")" ++ build_text r last
  end.

(** ** [getInstalledModules] *)

(** JSON values as [JSON.parse] returns them; a number's value plays no
    part here, and objects keep their members in source order. *)
#[warnings="-register-all"]
Inductive json :=
| JNull
| JBoolean (b : bool)
| JNumber
| JString (s : string)
| JArray (l : list json)
| JObject (kvs : list (string * json)).

(** A member of a parsed object: with duplicate keys the last one wins. *)
Definition lookup_last (k : string) (kvs : list (string * json))
  : option json :=
  fold_left (fun acc kv => if String.eqb (fst kv) k then Some (snd kv) else acc)
    kvs None.

(** [content.dependencies] for a manifest section name (neither an index
    nor [length]): [null] throws ([None]), a missing member is
    [undefined] ([Some None]). *)
Definition manifest_section (v : json) (k : string) : option (option json) :=
  match v with
  | JNull => None
  | JObject kvs => Some (lookup_last k kvs)
  | JBoolean _ | JNumber | JString _ | JArray _ => Some None
  end.

(** Array indices: canonical decimal strings below [2^32 - 1]. *)
Definition digit_val (c : ascii) : option N :=
  let n := nat_of_ascii c in
  if Nat.leb 48 n && Nat.leb n 57 then Some (N.of_nat (n - 48)) else None.

Fixpoint digits_val (acc : N) (s : string) : option N :=
  match s with
  | EmptyString => Some acc
  | String c s' =>
      match digit_val c with
      | Some d => digits_val (acc * 10 + d)%N s'
      | None => None
      end
  end.

Definition array_index (s : string) : option N :=
  match s with
  | EmptyString => None
  | String c s' =>
      if Ascii.eqb c "0" && negb (String.eqb s' EmptyString) then None
      else match digits_val 0 s with
           | Some n => if N.ltb n 4294967295 then Some n else None
           | None => None
           end
  end.

(** The keys of an object, each once, at its first position. *)
Fixpoint dedup_keys (seen : list string) (ks : list string) : list string :=
  match ks with
  | [] => []
  | k :: r =>
      if existsb (String.eqb k) seen then dedup_keys seen r
      else k :: dedup_keys (k :: seen) r
  end.

Fixpoint index_pairs (ks : list string) : list (N * string) :=
  match ks with
  | [] => []
  | k :: r =>
      match array_index k with
      | Some n => (n, k) :: index_pairs r
      | None => index_pairs r
      end
  end.

Fixpoint insert_idx (p : N * string) (l : list (N * string))
  : list (N * string) :=
  match l with
  | [] => [p]
  | q :: r => if N.leb (fst p) (fst q) then p :: l else q :: insert_idx p r
  end.

Fixpoint sort_idx (l : list (N * string)) : list (N * string) :=
  match l with
  | [] => []
  | p :: r => insert_idx p (sort_idx r)
  end.

(** The order of [for (key in obj)] on a plain object: array indices in
    ascending order, then the other keys in insertion order. *)
Definition own_keys (kvs : list (string * json)) : list string :=
  let ks := dedup_keys [] (map fst kvs) in
  (map snd (sort_idx (index_pairs ks))
   ++ filter (fun k => match array_index k with None => true | Some _ => false end) ks)%list.

Definition index_string (i : nat) : string :=
  NilEmpty.string_of_uint (Nat.to_uint i).

(** The keys [for (key in v)] visits; [undefined] and [null] give none,
    strings and arrays their indices. *)
Definition for_in_keys (v : option json) : list string :=
  match v with
  | None | Some JNull | Some (JBoolean _) | Some JNumber => []
  | Some (JString s) => map index_string (seq 0 (String.length s))
  | Some (JArray l) => map index_string (seq 0 (List.length l))
  | Some (JObject kvs) => own_keys kvs
  end.

(** [getInstalledModules()]; [JSON.parse] is a parameter ([None]: a
    [SyntaxError]); [None] as a result is a thrown exception. *)
Definition getInstalledModules (readFileSync : string -> string)
  (json_parse : string -> option json) : option (list ModuleRef) :=
  match json_parse (readFileSync "package.json") with
  | None => None
  | Some content =>
      match manifest_section content "dependencies" with
      | None => None
      | Some deps =>
          match manifest_section content "devDependencies" with
          | None => None
          | Some devDeps =>
              Some (map (fun key => mkModule key false) (for_in_keys deps)
                    ++ map (fun key => mkModule key true) (for_in_keys devDeps))%list
          end
      end
  end.

(** ** [getUsedModules] *)

(** [s.endsWith(suffix)]. *)
Definition js_endsWith (s suffix : string) : bool :=
  let n := String.length s in
  let m := String.length suffix in
  Nat.leb m n && String.eqb (String.substring (n - m) m s) suffix.

Definition isTestFile (name : string) : bool :=
  js_endsWith name ".spec.js" || js_endsWith name ".test.js".

(** [getUsedModules()]: [getFiles] is called without an argument, which it
    ignores. *)
Definition getUsedModules (glob_sync : string -> list string -> list string)
  (readFileSync : string -> string) : list ModuleRef :=
  let files := getFiles glob_sync EmptyString in
  let usedModules :=
    flat_map (fun fileName =>
                let modulesFromFile := getModulesFromFile readFileSync fileName in
                let dev := isTestFile fileName in
                map (fun name => mkModule name dev) modulesFromFile) files in
  deduplicate usedModules.

(** ** [reinstall] *)

(** [stopSpinner(spinner)] is called without message or type. *)
Definition reinstall (syncExec : string -> Z) : M unit :=
  startSpinner "Cleaning up" "green" ;;;
  _ <- runCommand syncExec "npm install" ;;
  stopSpinner None EmptyString.

(** * Properties *)

(** ** String lemmas *)

Lemma str_app_assoc (a b c : string) : (a ++ b) ++ c = a ++ (b ++ c).
Proof. induction a as [|x a IH]; simpl; [reflexivity | rewrite IH; reflexivity]. Qed.

Lemma str_length_app (a b : string) :
  String.length (a ++ b) = String.length a + String.length b.
Proof. induction a as [|x a IH]; simpl; [reflexivity | rewrite IH; reflexivity]. Qed.

(** ** Array [indexOf] *)

Lemma js_arr_indexOf_cases (x : string) (l : list string) :
  (js_arr_indexOf x l = (-1)%Z /\ ~ In x l)
  \/ (0 <= js_arr_indexOf x l)%Z /\ In x l.
Proof.
  induction l as [|y l IH]; simpl.
  - left. split; [reflexivity | tauto].
  - destruct (String.eqb_spec y x) as [->|Hne].
    + right. split; [lia | left; reflexivity].
    + destruct IH as [[-> Hn] | [Hp Hi]].
      * left. split; [reflexivity|]. intros [H|H]; [congruence | tauto].
      * right. split; [|right; exact Hi].
        destruct (js_arr_indexOf x l) eqn:E; try lia; congruence.
Qed.

Lemma js_arr_indexOf_neg (x : string) (l : list string) :
  (js_arr_indexOf x l <? 0)%Z = true <-> ~ In x l.
Proof.
  rewrite Z.ltb_lt.
  destruct (js_arr_indexOf_cases x l) as [[-> H] | [H1 H2]].
  - split; [intros _; exact H | intros _; lia].
  - split; [lia | tauto].
Qed.

Lemma js_arr_indexOf_absent (x : string) (l : list string) :
  Z.eqb (js_arr_indexOf x l) (-1) = true <-> ~ In x l.
Proof.
  rewrite Z.eqb_eq.
  destruct (js_arr_indexOf_cases x l) as [[-> H] | [H1 H2]].
  - tauto.
  - split; [lia | tauto].
Qed.

(** ** C1: the validator applied to a bare string *)

(** C1 (code_bug).  [isValidModule] destructures [{name, dev}] from its
    argument; given a bare string, as in [getModulesFromFile], the tested
    value is [String(undefined)] = ["undefined"], so every string is
    accepted, ["Foo"] included.  A module object is checked as intended. *)
Theorem isValidModule_accepts_every_string :
  (forall s, isValidModule (AStr s) = true)
  /\ isValidModule (AStr "Foo") = true
  /\ isValidModule (AStr "@scope/pkg") = true
  /\ isValidModule (AStr "../x") = true
  /\ isValidModule (AStr EmptyString) = true
  /\ isValidModule (AMod (mkModule "Foo" false)) = false
  /\ isValidModule (AMod (mkModule "my-lib_2" false)) = true.
Proof. repeat split. Qed.

(** ** C4: [diff] by name only *)

(** C4.  [diff a b] keeps, in order, exactly the elements of [a] (whole
    objects, so with their own [dev] flag) whose name is not the name of
    any element of [b]; the [dev] flags of [b] play no part.  On names
    [{a,b,c}] against [{b,c}] it gives [{a}], and on [{b,c}] against
    [{a,b,c}] nothing, whatever the flags. *)
Theorem diff_by_name_only :
  (forall a b m,
      In m (diff a b) <-> In m a /\ (forall m', In m' b -> name m' <> name m))
  /\ (forall a b,
      diff a b = filter (fun m => negb (existsb
                   (fun m' => String.eqb (name m') (name m)) b)) a)
  /\ (forall a b f,
      diff a b = diff a (map (fun m' => mkModule (name m') (f m')) b))
  /\ (forall d1 d2 d3 e2 e3,
      diff [mkModule "a" d1; mkModule "b" d2; mkModule "c" d3]
           [mkModule "b" e2; mkModule "c" e3] = [mkModule "a" d1])
  /\ (forall d2 d3 e1 e2 e3,
      diff [mkModule "b" d2; mkModule "c" d3]
           [mkModule "a" e1; mkModule "b" e2; mkModule "c" e3] = []).
Proof.
  assert (Hex : forall (b : list ModuleRef) x,
             existsb (fun m' => String.eqb (name m') x) b = true
             <-> In x (getNamesFromModules b)).
  { intros b x. rewrite existsb_exists. unfold getNamesFromModules.
    rewrite in_map_iff. split.
    - intros [m' [Hi He]]. apply String.eqb_eq in He. eauto.
    - intros [m' [He Hi]]. exists m'. split; [exact Hi|].
      apply String.eqb_eq. exact He. }
  assert (Hfilt : forall a b,
      diff a b = filter (fun m => negb (existsb
                   (fun m' => String.eqb (name m') (name m)) b)) a).
  { intros a b. unfold diff. apply filter_ext. intros m.
    destruct (existsb (fun m' => String.eqb (name m') (name m)) b) eqn:E;
      simpl.
    - apply Hex in E. apply Bool.not_true_iff_false.
      rewrite js_arr_indexOf_neg. tauto.
    - apply js_arr_indexOf_neg. intros Hin. apply Hex in Hin. congruence. }
  split; [|split; [exact Hfilt|split; [|split]]].
  - intros a b m. unfold diff. rewrite filter_In, js_arr_indexOf_neg.
    unfold getNamesFromModules. rewrite in_map_iff. split.
    + intros [Ha Hn]. split; [exact Ha|]. intros m' Hb He. apply Hn. eauto.
    + intros [Ha Hn]. split; [exact Ha|]. intros [m' [He Hb]].
      exact (Hn m' Hb He).
  - intros a b f. unfold diff, getNamesFromModules. rewrite map_map.
    reflexivity.
  - intros. reflexivity.
  - intros. reflexivity.
Qed.

(** ** C9: idempotence of a run *)

Lemma diff_nil_of_names_included (a b : list ModuleRef) :
  (forall x, In x (getNamesFromModules a) -> In x (getNamesFromModules b)) ->
  diff a b = [].
Proof.
  intros H. unfold diff.
  induction a as [|m a IH]; [reflexivity|]. simpl.
  assert (Hm : In (name m) (getNamesFromModules b)) by (apply H; left; auto).
  destruct (Z.ltb (js_arr_indexOf (name m) (getNamesFromModules b)) 0) eqn:E.
  - apply js_arr_indexOf_neg in E. contradiction.
  - apply IH. intros x Hx. apply H. right. exact Hx.
Qed.

(** C9.  When the declared and the used modules have the same set of
    names, both differences of a run are empty: nothing to install and
    nothing to remove. *)
Theorem run_idempotent (used declared : list ModuleRef) :
  (forall x, In x (getNamesFromModules declared)
             <-> In x (getNamesFromModules used)) ->
  diff used declared = [] /\ diff declared used = [].
Proof.
  intros H. split; apply diff_nil_of_names_included; intros x Hx; apply H;
    exact Hx.
Qed.

Lemma run_idempotent_witness :
  let used := [mkModule "lodash" false; mkModule "chalk" true;
               mkModule "lodash" true] in
  let declared := [mkModule "chalk" false; mkModule "lodash" true] in
  (forall x, In x (getNamesFromModules declared)
             <-> In x (getNamesFromModules used))
  /\ diff used declared = [] /\ diff declared used = [].
Proof.
  intros used declared.
  assert (H : forall x, In x (getNamesFromModules declared)
                        <-> In x (getNamesFromModules used)).
  { intros x. simpl. tauto. }
  split; [exact H | exact (run_idempotent used declared H)].
Defined.

(** ** C10: [getFiles] ignores its argument *)

(** C10.  For a fixed file system ([glob_sync]), [getFiles] returns the
    same list whatever path it is given: the glob of [**/*.js] from the
    working directory, ignoring [node_modules]. *)
Theorem getFiles_ignores_path :
  forall (glob_sync : string -> list string -> list string) p1 p2,
    getFiles glob_sync p1 = getFiles glob_sync p2
    /\ getFiles glob_sync p1 = glob_sync "**/*.js" ["node_modules/**/*"].
Proof. intros. split; reflexivity. Qed.

(** ** C6: [filterRegistryModules] *)

(** What [filterRegistryModules] keeps: a module survives exactly when it
    is not a built-in and its name does not start with [./]. *)
Lemma filterRegistryModules_In (isBuiltInModule : string -> bool)
  (modules : list ModuleRef) (m : ModuleRef) :
  In m (filterRegistryModules isBuiltInModule modules)
  <-> In m modules /\ isBuiltInModule (name m) = false
      /\ js_str_indexOf "./" (name m) <> 0%Z.
Proof.
  unfold filterRegistryModules, removeLocalFiles, removeBuiltInModules.
  rewrite !filter_In, negb_true_iff, negb_true_iff, Z.eqb_neq. tauto.
Qed.

(** C6 (code_bug).  [removeLocalFiles] only drops names whose
    [indexOf('./')] is [0]; a parent-relative reference such as
    [../utils] is kept by [filterRegistryModules] (whenever it is not a
    built-in name), while [./utils] and a built-in [fs] are removed. *)
Theorem filterRegistryModules_keeps_parent_relative :
  forall (isBuiltInModule : string -> bool),
    removeLocalFiles [mkModule "../utils" false] = [mkModule "../utils" false]
    /\ filterRegistryModules isBuiltInModule [mkModule "../utils" false]
       = (if isBuiltInModule "../utils" then []
          else [mkModule "../utils" false])
    /\ filterRegistryModules (fun s => String.eqb s "fs")
         [mkModule "fs" false; mkModule "./utils" false;
          mkModule "lodash" false; mkModule "../utils" true]
       = [mkModule "lodash" false; mkModule "../utils" true].
Proof.
  intros isBuiltInModule. split; [reflexivity|split; [|reflexivity]].
  unfold filterRegistryModules, removeBuiltInModules. simpl.
  destruct (isBuiltInModule "../utils"); reflexivity.
Qed.

(** ** C7: the trust gate *)

(** C7 (code_bug).  Whatever [sync-request] does, [isModulePopular]
    either throws or returns [undefined], never a boolean; so in secure
    mode [installModule] never runs an install command, and with a
    reachable registry it reports a popular module such as [lodash] as
    not trusted.  (The URL it requests ends in [undefined]: the bare name
    passed to it is destructured as [{name, dev}].) *)
Theorem isModulePopular_never_boolean :
  forall (syncExec : string -> Z) (request_returns : string -> bool),
    (forall a l, snd (isModulePopular request_returns a l) = Some JUndefined
                 \/ snd (isModulePopular request_returns a l) = None)
    /\ (forall m c,
        ~ In (Exec c) (fst (installModule syncExec request_returns true m [])))
    /\ installModule syncExec (fun _ => true) true (mkModule "lodash" false) []
       = ([SpinnerStart "Installing lodash" "green";
           HttpGet "https://apa.npmjs.org/downloads/point/last-month/undefined";
           SpinnerStop; ConsoleLog SymWarning "lodash not trusted"], Some tt).
Proof.
  intros syncExec request_returns. split; [|split; [|reflexivity]].
  - intros a l. unfold isModulePopular, bind, emit, ret, throw. simpl.
    destruct (request_returns _); simpl; auto.
  - intros m c. unfold installModule, isModulePopular, startSpinner,
      stopSpinner, bind, emit, ret, throw.
    simpl. destruct (request_returns _); simpl; intuition discriminate.
Qed.

(** ** C8: reporting of the apply actions *)

(** [installModule] outside secure mode reports a failure exactly when the
    install command exits with a non-zero status. *)
Lemma installModule_reports_failure (syncExec : string -> Z)
  (request_returns : string -> bool) (m : ModuleRef) :
  let command := if dev m then "npm install " ++ name m ++ " --save-dev"
                 else "npm install " ++ name m ++ " --save" in
  In (ConsoleLog SymWarning (name m ++ " installation failed"))
     (fst (installModule syncExec request_returns false m []))
  <-> syncExec command <> 0%Z.
Proof.
  intros command.
  assert (Hc : (if dev m then ("npm install " ++ name m ++ " --save") ++ "-dev"
                else "npm install " ++ name m ++ " --save") = command).
  { unfold command. destruct (dev m); [|reflexivity].
    rewrite !str_app_assoc. reflexivity. }
  cbv beta iota zeta delta [installModule runCommand startSpinner stopSpinner
    bind emit ret]. rewrite Hc.
  destruct (Z.eqb_spec (syncExec command) 0) as [E|E]; simpl.
  - split; [|tauto]. intros H.
    repeat destruct H as [H|H]; try discriminate; contradiction.
  - split; [intros _; exact E|]. intros _. right; right; right; left.
    reflexivity.
Qed.

(** C8 (code_bug).  [uninstallModule] ignores the result of [runCommand]:
    its output does not depend on the command's exit status, and after a
    failed [npm uninstall] it still reports the module as removed. *)
Theorem uninstallModule_ignores_status :
  (forall (e1 e2 : string -> Z) m l,
      uninstallModule e1 m l = uninstallModule e2 m l)
  /\ uninstallModule (fun _ => 1%Z) (mkModule "lodash" false) []
     = ([SpinnerStart "Uninstalling lodash" "red";
         Exec "npm uninstall lodash --save"; SpinnerStop;
         ConsoleLog SymError "lodash removed"], Some tt).
Proof. split; reflexivity. Qed.

(** ** C5: [deduplicate] *)

Lemma spec_first_by_name_fuel (f1 f2 : nat) (l : list ModuleRef) :
  List.length l <= f1 -> List.length l <= f2 ->
  spec_first_by_name f1 l = spec_first_by_name f2 l.
Proof.
  revert f2 l. induction f1 as [|f1 IH]; intros f2 l H1 H2.
  - destruct l; [destruct f2; reflexivity | simpl in H1; lia].
  - destruct l as [|m r].
    + destruct f2; reflexivity.
    + destruct f2 as [|f2]; [simpl in H2; lia|]. simpl. f_equal.
      simpl in H1, H2.
      pose proof (filter_length_le
                    (fun m' => negb (String.eqb (name m') (name m))) r).
      apply IH; lia.
Qed.

Lemma keep_first_by_name_cons (m : ModuleRef) (r : list ModuleRef) :
  keep_first_by_name (m :: r)
  = m :: keep_first_by_name
           (filter (fun m' => negb (String.eqb (name m') (name m))) r).
Proof.
  unfold keep_first_by_name at 1. simpl. f_equal.
  apply spec_first_by_name_fuel; [apply filter_length_le | lia].
Qed.

Lemma filter_not_seen_snoc (seen : list string) (x : string)
  (r : list ModuleRef) :
  filter (not_seen (seen ++ [x])%list) r
  = filter (fun m' => negb (String.eqb (name m') x)) (filter (not_seen seen) r).
Proof.
  induction r as [|m r IH]; [reflexivity|]. simpl.
  assert (E : not_seen (seen ++ [x])%list m
              = not_seen seen m && negb (String.eqb (name m) x)).
  { apply Bool.eq_iff_eq_true. unfold not_seen.
    rewrite andb_true_iff, negb_true_iff, !js_arr_indexOf_absent,
      String.eqb_neq, in_app_iff. simpl. split; [intros H; split; intros E; apply H; auto | intros [H1 H2] [E|[E|[]]]; auto]. }
  rewrite E. destruct (not_seen seen m); simpl; rewrite IH; reflexivity.
Qed.

(** The loop of [deduplicateSimilarModules] against the spec's
    "first occurrence of each name". *)
Lemma dedup_loop_spec (l : list ModuleRef) :
  forall accM accN,
    dedup_loop accM accN l
    = (accM ++ keep_first_by_name (filter (not_seen accN) l))%list.
Proof.
  induction l as [|m r IH]; intros accM accN.
  - simpl. rewrite app_nil_r. reflexivity.
  - simpl. fold (not_seen accN m).
    destruct (not_seen accN m) eqn:E.
    + rewrite IH, keep_first_by_name_cons, filter_not_seen_snoc,
        <- app_assoc. reflexivity.
    + apply IH.
Qed.

Lemma deduplicateSimilarModules_spec (l : list ModuleRef) :
  deduplicateSimilarModules l = keep_first_by_name l.
Proof.
  unfold deduplicateSimilarModules. rewrite dedup_loop_spec.
  simpl. f_equal. induction l as [|m r IH]; simpl; [reflexivity|].
  rewrite IH. reflexivity.
Qed.

Lemma spec_first_by_name_props (f : nat) :
  forall l,
    (forall m, In m (spec_first_by_name f l) -> In m l)
    /\ NoDup (map name (spec_first_by_name f l)).
Proof.
  induction f as [|f IH]; intros l.
  - split; [intros m [] | constructor].
  - destruct l as [|m r]; [split; [intros m' [] | constructor]|].
    simpl.
    destruct (IH (filter (fun m' => negb (String.eqb (name m') (name m))) r))
      as [Hin Hnd].
    split.
    + intros m' [<-|H]; [left; reflexivity|].
      apply Hin, filter_In in H. right. tauto.
    + constructor; [|exact Hnd]. intros Hm. apply in_map_iff in Hm.
      destruct Hm as [m' [He Hm']]. apply Hin, filter_In in Hm'.
      destruct Hm' as [_ Hne]. rewrite He, String.eqb_refl in Hne.
      discriminate.
Qed.

(** C5.  [deduplicate] is the first-occurrence-by-name deduplication of
    the [dev] partition followed by that of the production partition; its
    output has no two entries with the same [(name, dev)] pair, and on
    [[{a,false},{a,false},{a,true}]] it gives [[{a,true},{a,false}]]. *)
Theorem deduplicate_partitions_first_seen :
  (forall l, deduplicate l = spec_deduplicate l)
  /\ (forall l, NoDup (map (fun m => (name m, dev m)) (deduplicate l)))
  /\ deduplicate [mkModule "a" false; mkModule "a" false; mkModule "a" true]
     = [mkModule "a" true; mkModule "a" false].
Proof.
  assert (Hspec : forall l, deduplicate l = spec_deduplicate l).
  { intros l. unfold deduplicate, spec_deduplicate. simpl.
    rewrite !deduplicateSimilarModules_spec. reflexivity. }
  split; [exact Hspec | split; [|reflexivity]].
  intros l. rewrite Hspec. unfold spec_deduplicate, keep_first_by_name.
  set (K1 := spec_first_by_name _ (filter dev l)).
  set (K2 := spec_first_by_name _ (filter (fun m => negb (dev m)) l)).
  assert (Hpair : forall K, NoDup (map name K) ->
                    NoDup (map (fun m => (name m, dev m)) K)).
  { intros K HK. apply (NoDup_map_inv fst). rewrite map_map. exact HK. }
  destruct (spec_first_by_name_props (List.length (filter dev l))
              (filter dev l)) as [Hi1 Hn1].
  destruct (spec_first_by_name_props
              (List.length (filter (fun m => negb (dev m)) l))
              (filter (fun m => negb (dev m)) l)) as [Hi2 Hn2].
  fold K1 in Hi1, Hn1. fold K2 in Hi2, Hn2.
  rewrite map_app. apply NoDup_app; [apply Hpair; exact Hn1
                                   | apply Hpair; exact Hn2 |].
  intros [x d] Ha Hb. apply in_map_iff in Ha, Hb.
  destruct Ha as [m1 [E1 H1]], Hb as [m2 [E2 H2]].
  apply Hi1, filter_In in H1. apply Hi2, filter_In in H2.
  injection E1 as _ E1. injection E2 as _ E2.
  destruct H1 as [_ D1], H2 as [_ D2]. subst d.
  rewrite E2, D1 in D2. discriminate.
Qed.

(** ** The extractor *)

Lemma substring_full (s : string) : String.substring 0 (String.length s) s = s.
Proof. induction s as [|c s IH]; simpl; [reflexivity | rewrite IH; reflexivity]. Qed.

Lemma substring_app_l (a b : string) (m : nat) :
  m <= String.length a ->
  String.substring 0 m (a ++ b) = String.substring 0 m a.
Proof.
  revert m. induction a as [|c a IH]; intros m Hm; destruct m as [|m];
    simpl in *; try reflexivity; try lia.
  - destruct b; reflexivity.
  - rewrite IH by lia. reflexivity.
Qed.

Lemma substring_prefix (a b : string) :
  String.substring 0 (String.length a) (a ++ b) = a.
Proof. rewrite substring_app_l by lia. apply substring_full. Qed.

Lemma substring_drop (p t : string) :
  String.substring (String.length p)
    (String.length (p ++ t) - String.length p) (p ++ t) = t.
Proof.
  induction p as [|c p IH]; simpl.
  - rewrite Nat.sub_0_r. apply substring_full.
  - exact IH.
Qed.

Lemma length_substring_le (n m : nat) (s : string) :
  String.length (String.substring n m s) <= String.length s - n.
Proof.
  revert n m. induction s as [|c s IH]; intros n m;
    destruct n as [|n], m as [|m]; simpl; try lia.
  - specialize (IH 0 m). lia.
  - apply IH.
  - apply IH.
Qed.

Lemma prefix_app_self (p w : string) : String.prefix p (p ++ w) = true.
Proof.
  induction p as [|c p IH]; simpl; [destruct w; reflexivity|].
  destruct (ascii_dec c c); [exact IH | congruence].
Qed.

Lemma prefix_app_long (p s t : string) :
  String.length p <= String.length s ->
  String.prefix p (s ++ t) = String.prefix p s.
Proof.
  revert s. induction p as [|c p IH]; intros s H;
    [destruct s, t; reflexivity|].
  destruct s as [|d s]; simpl in H; [lia|]. simpl.
  destruct (ascii_dec c d); [apply IH; lia | reflexivity].
Qed.

(** [require(] does not overlap itself: a match cannot start strictly
    inside the eight characters before another occurrence. *)
Lemma no_border (t w : string) :
  t <> EmptyString -> String.length t < 8 ->
  String.prefix require_open (t ++ require_open ++ w) = false.
Proof.
  intros Hne Hlen.
  destruct t as [|c1 t]; [congruence|].
  do 7 (try destruct t as [|? t]).
  all: try (simpl in Hlen; lia).
  all: unfold require_open; cbn [String.prefix append].
  all: repeat (match goal with
               | |- context [ascii_dec ?a ?b] =>
                   destruct (ascii_dec a b) as [?|?];
                   [try subst; try discriminate
                   | try reflexivity; exfalso; congruence]
               end; cbn [String.prefix append]).
Qed.

Lemma find_close_shorter (t a r : string) :
  find_close t = Some (a, r) -> String.length r < String.length t.
Proof.
  revert a. induction t as [|c t IH]; intros a H; simpl in H; [discriminate|].
  destruct (Ascii.eqb c ")").
  - injection H as _ <-. simpl. lia.
  - destruct (is_line_terminator c); [discriminate|].
    destruct (find_close t) as [[a' r']|] eqn:E; [|discriminate].
    injection H as _ <-. simpl. specialize (IH a' eq_refl). lia.
Qed.

Lemma scan_S (f : nat) (s : string) (c : ascii) (s' : string) :
  s = String c s' ->
  scan (S f) s
  = if String.prefix require_open s then
      match find_close (String.substring 8 (String.length s - 8) s) with
      | Some (a, r) => (require_open ++ a ++ ")") :: scan f r
      | None => scan f s'
      end
    else scan f s'.
Proof. intros ->. reflexivity. Qed.

Lemma scan_fuel (f1 f2 : nat) (s : string) :
  String.length s < f1 -> String.length s < f2 -> scan f1 s = scan f2 s.
Proof.
  revert f2 s. induction f1 as [|f1 IH]; intros f2 s H1 H2; [lia|].
  destruct f2 as [|f2]; [lia|].
  destruct s as [|c s']; [reflexivity|].
  rewrite (scan_S f1 _ c s' eq_refl), (scan_S f2 _ c s' eq_refl).
  simpl String.length in H1, H2.
  destruct (String.prefix require_open (String c s')); [|apply IH; lia].
  pose proof (length_substring_le 8 (String.length (String c s') - 8)
                (String c s')) as Hl.
  destruct (find_close _) as [[a r]|] eqn:E; [|apply IH; lia].
  apply find_close_shorter in E. simpl String.length in Hl, E.
  f_equal. apply IH; lia.
Qed.

Lemma getModulesFromContent_matches (c : string) :
  getModulesFromContent c = push_valid (all_matches c).
Proof.
  unfold getModulesFromContent, content_match.
  destruct (all_matches c); reflexivity.
Qed.

Lemma all_matches_skip (c : ascii) (s : string) :
  String.prefix require_open (String c s) = false ->
  all_matches (String c s) = all_matches s.
Proof.
  intros H. unfold all_matches. rewrite (scan_S _ _ c s eq_refl), H.
  apply scan_fuel; simpl; lia.
Qed.

Lemma all_matches_call (w a r : string) :
  find_close w = Some (a, r) ->
  all_matches (require_open ++ w) = (require_open ++ a ++ ")") :: all_matches r.
Proof.
  intros H. unfold all_matches.
  rewrite (scan_S _ (require_open ++ w) "r" ("equire(" ++ w) eq_refl),
    prefix_app_self.
  change (String.substring 8 (String.length (require_open ++ w) - 8)
            (require_open ++ w))
    with (String.substring (String.length require_open)
            (String.length (require_open ++ w) - String.length require_open)
            (require_open ++ w)).
  rewrite (substring_drop require_open w), H. f_equal.
  apply find_close_shorter in H.
  apply scan_fuel; rewrite ?str_length_app; simpl; lia.
Qed.

Lemma all_matches_filler (fill w : string) :
  has_require fill = false ->
  all_matches (fill ++ require_open ++ w) = all_matches (require_open ++ w).
Proof.
  induction fill as [|c f IH]; intros H; [reflexivity|].
  simpl in H. apply orb_false_iff in H as [Hp Hf].
  change (String c f ++ require_open ++ w) with (String c (f ++ require_open ++ w)).
  rewrite all_matches_skip; [apply IH; exact Hf|].
  change (String c (f ++ require_open ++ w))
    with (String c f ++ require_open ++ w).
  destruct (le_lt_dec 8 (String.length (String c f))) as [Hl|Hl].
  - rewrite prefix_app_long by exact Hl. exact Hp.
  - apply no_border; [discriminate | exact Hl].
Qed.

Lemma all_matches_clean (s : string) :
  has_require s = false -> all_matches s = [].
Proof.
  induction s as [|c s IH]; intros H; [reflexivity|].
  simpl in H. apply orb_false_iff in H as [Hp Hs].
  rewrite all_matches_skip by exact Hp. apply IH, Hs.
Qed.

Lemma find_close_lit (a r : string) :
  no_close a = true -> find_close (a ++ ")" ++ r) = Some (a, r).
Proof.
  induction a as [|c a IH]; intros H; [reflexivity|].
  simpl in H. apply andb_prop in H as [H Ha]. apply andb_prop in H as [H1 H2].
  apply negb_true_iff in H1, H2.
  change (String c a ++ ")" ++ r) with (String c (a ++ ")" ++ r)).
  cbn [find_close]. rewrite H1, H2, IH by exact Ha.
  reflexivity.
Qed.

Lemma no_close_app (a b : string) :
  no_close (a ++ b) = no_close a && no_close b.
Proof.
  induction a as [|c a IH]; simpl; [reflexivity|].
  rewrite IH, !andb_assoc. reflexivity.
Qed.

Lemma js_clamp_spec (len : nat) (i : Z) (k : nat) :
  Z.of_nat k = Z.max 0 (Z.min i (Z.of_nat len)) -> js_clamp len i = k.
Proof. intros H. unfold js_clamp. rewrite <- H. apply Nat2Z.id. Qed.

Lemma js_substring_from_2 (x y : ascii) (u : string) :
  js_substring_from (String x (String y u)) 2 = u.
Proof.
  unfold js_substring_from, js_substring.
  rewrite (js_clamp_spec _ 2 2) by (simpl String.length; lia).
  rewrite (js_clamp_spec _ _ (String.length (String x (String y u)))) by lia.
  simpl String.length. replace (Nat.min 2 _) with 2 by lia.
  replace (Nat.max 2 _) with (S (S (String.length u))) by lia.
  simpl. rewrite Nat.sub_0_r. apply substring_full.
Qed.

Lemma js_substring_drop_last2 (t : string) :
  js_substring (t ++ ")") 0 (Z.of_nat (String.length (t ++ ")")) - 2)
  = String.substring 0 (String.length t - 1) t.
Proof.
  unfold js_substring. rewrite str_length_app. simpl String.length.
  rewrite (js_clamp_spec _ 0 0) by lia.
  rewrite (js_clamp_spec _ _ (String.length t - 1)) by lia.
  simpl Nat.min. simpl Nat.max. rewrite Nat.sub_0_r.
  apply substring_app_l. lia.
Qed.

(** Stripping the call syntax from a match [require(ARG)] leaves [ARG]
    without its first and last characters. *)
Lemma strip_match_call (a : string) :
  strip_match (require_open ++ a ++ ")") = drop_ends a.
Proof.
  unfold strip_match.
  assert (Hr : js_replace "require" EmptyString (require_open ++ a ++ ")")
               = "(" ++ a ++ ")").
  { change (require_open ++ a ++ ")") with ("require" ++ ("(" ++ a ++ ")")).
    assert (Hg : forall pat rep s, String.prefix pat s = true ->
                   js_replace pat rep s
                   = rep ++ String.substring (String.length pat)
                              (String.length s - String.length pat) s).
    { intros pat rep [|c s] Hp; cbn [js_replace]; rewrite Hp; reflexivity. }
    rewrite Hg by apply prefix_app_self. apply substring_drop. }
  rewrite Hr. destruct a as [|c t]; [reflexivity|].
  change ("(" ++ String c t ++ ")") with (String "(" (String c (t ++ ")"))).
  rewrite js_substring_from_2. apply js_substring_drop_last2.
Qed.

Lemma drop_ends_literal (n : string) : drop_ends (dq ++ n ++ dq) = n.
Proof.
  unfold drop_ends, dq. simpl. rewrite str_length_app. simpl String.length.
  replace (String.length n + 1 - 1) with (String.length n) by lia.
  apply substring_prefix.
Qed.

Lemma name_chars_no_close (n : string) :
  all_name_chars n = true -> no_close n = true.
Proof.
  induction n as [|c n IH]; intros H; [reflexivity|].
  simpl in H. apply andb_prop in H as [Hc Hn]. simpl. rewrite IH by exact Hn.
  unfold name_char in Hc. unfold is_line_terminator.
  destruct (Ascii.eqb_spec c ")") as [->|Hne]; [discriminate|].
  remember (nat_of_ascii c) as k.
  destruct (Nat.eqb_spec k 10) as [->|]; [discriminate|].
  destruct (Nat.eqb_spec k 13) as [->|]; [discriminate|].
  reflexivity.
Qed.

Lemma push_valid_strings (ms : list string) :
  push_valid ms = map strip_match ms.
Proof. induction ms as [|m ms IH]; simpl; [reflexivity | rewrite IH; reflexivity]. Qed.

(** ** C2: calls whose argument is not a literal *)

(** C2 (counterexample).  [require(path)] with a variable [path] is not
    skipped: the call syntax is stripped by position, leaving ["at"], which
    passes validation. *)
Lemma getModulesFromFile_non_literal_kept :
  getModulesFromFile (fun _ => "const p = require(path);") "index.js" = ["at"].
Proof. reflexivity. Qed.

(** C2 (amended).  For a file text [PRE require(ARG) POST] where neither
    [PRE] nor [POST] contains [require(] and [ARG] contains no [)] or line
    break, extraction of the read text raises no error and yields at most
    one candidate: [ARG] without its first and last characters, kept
    exactly when [isValidModule] accepts it.  A non-literal argument is
    thus dropped only when that trimmed text is rejected; a quoted literal
    gives back its contents. *)
Theorem getModulesFromFile_single_call :
  forall (readFileSync : string -> string) (path pre a post : string),
    has_require pre = false -> has_require post = false ->
    no_close a = true ->
    readFileSync path = pre ++ require_open ++ a ++ ")" ++ post ->
    getModulesFromFile readFileSync path
    = (if isValidModule (AStr (drop_ends a)) then [drop_ends a] else [])
    /\ (forall n, a = dq ++ n ++ dq -> drop_ends a = n).
Proof.
  intros readFileSync path pre a post Hpre Hpost Ha Hf.
  split; [|intros n ->; apply drop_ends_literal].
  unfold getModulesFromFile. rewrite Hf, getModulesFromContent_matches.
  rewrite all_matches_filler by exact Hpre.
  rewrite (all_matches_call _ a post) by (apply find_close_lit; exact Ha).
  rewrite all_matches_clean by exact Hpost.
  cbn [push_valid]. rewrite strip_match_call. reflexivity.
Qed.

Lemma getModulesFromFile_single_call_witness :
  let text := "const p = require(path);" in
  has_require "const p = " = false /\ has_require ";" = false
  /\ no_close "path" = true
  /\ getModulesFromFile (fun _ => text) "index.js"
     = (if isValidModule (AStr (drop_ends "path")) then [drop_ends "path"]
        else []).
Proof.
  intros text.
  split; [reflexivity | split; [reflexivity | split; [reflexivity|]]].
  apply (getModulesFromFile_single_call (fun _ => text) "index.js"
           "const p = " "path" ";"); reflexivity.
Defined.

(** ** C3: well-formed literal calls *)

Lemma extract_build_text (segs : list (string * string)) (last : string) :
  Forall (fun fn => has_require (fst fn) = false
                    /\ name_regex_test (snd fn) = true) segs ->
  has_require last = false ->
  push_valid (all_matches (build_text segs last)) = map snd segs.
Proof.
  intros Hs Hl.
  induction Hs as [|[fill n] segs [Hf Hn] Hs IH]; cbn [build_text map fst snd].
  - rewrite all_matches_clean by exact Hl. reflexivity.
  - rewrite all_matches_filler by exact Hf.
    assert (Hnc : no_close (dq ++ n ++ dq) = true).
    { rewrite !no_close_app. unfold name_regex_test in Hn.
      apply andb_prop in Hn as [_ Hn].
      simpl in Hn. rewrite (name_chars_no_close n Hn). reflexivity. }
    replace (dq ++ n ++ dq ++ ")" ++ build_text segs last)
      with ((dq ++ n ++ dq) ++ ")" ++ build_text segs last)
      by (rewrite !str_app_assoc; reflexivity).
    rewrite (all_matches_call _ (dq ++ n ++ dq) (build_text segs last))
      by (apply find_close_lit; exact Hnc).
    cbn [push_valid]. rewrite strip_match_call, drop_ends_literal, IH.
    reflexivity.
Qed.

(** C3.  A file made of [n] expressions [require("name")] with distinct
    names matching [^[a-z0-9-_]+$], separated by any text without another
    [require(] (on one line or several), yields exactly those [n] names,
    in order. *)
Theorem getModulesFromFile_literal_calls :
  forall (readFileSync : string -> string) (path : string)
         (segs : list (string * string)) (last : string),
    Forall (fun fn => has_require (fst fn) = false
                      /\ name_regex_test (snd fn) = true) segs ->
    has_require last = false ->
    NoDup (map snd segs) ->
    readFileSync path = build_text segs last ->
    getModulesFromFile readFileSync path = map snd segs.
Proof.
  intros readFileSync path segs last Hs Hl _ Hf.
  unfold getModulesFromFile. rewrite Hf, getModulesFromContent_matches.
  apply extract_build_text; assumption.
Qed.

Lemma getModulesFromFile_literal_calls_witness :
  let segs := [("const a = ", "lodash"); ("; const b = ", "my-lib_2")] in
  let last := ";
" in
  getModulesFromFile (fun _ => build_text segs last) "index.js"
  = ["lodash"; "my-lib_2"].
Proof.
  intros segs last.
  apply (getModulesFromFile_literal_calls (fun _ => build_text segs last)
           "index.js" segs last).
  - repeat constructor.
  - reflexivity.
  - repeat constructor; simpl; intuition discriminate.
  - reflexivity.
Defined.

(** * Further properties of the helpers *)

(** ** Key enumeration of parsed objects *)

Lemma dedup_keys_In (ks seen : list string) (k : string) :
  In k (dedup_keys seen ks) <-> In k ks /\ ~ In k seen.
Proof.
  revert seen. induction ks as [|x ks IH]; intros seen; simpl; [tauto|].
  destruct (existsb (String.eqb x) seen) eqn:E.
  - rewrite IH. apply existsb_exists in E as [y [Hy Hxy]].
    apply String.eqb_eq in Hxy. subst y. split; [tauto|].
    intros [[<-|H] Hn]; [contradiction | tauto].
  - simpl. rewrite IH. simpl.
    assert (Hx : ~ In x seen).
    { intros Hin. apply Bool.not_true_iff_false in E. apply E.
      apply existsb_exists. exists x. split; [exact Hin | apply String.eqb_refl]. }
    split.
    + intros [<-|[H1 H2]]; [tauto|]. split; [right; exact H1|tauto].
    + intros [[<-|H1] H2]; [left; reflexivity|].
      destruct (String.eqb_spec x k) as [->|Hne]; [left; reflexivity|].
      right. split; [exact H1|]. intros [H|H]; [congruence|tauto].
Qed.

Lemma dedup_keys_NoDup (ks seen : list string) : NoDup (dedup_keys seen ks).
Proof.
  revert seen. induction ks as [|x ks IH]; intros seen; simpl; [constructor|].
  destruct (existsb (String.eqb x) seen); [apply IH|].
  constructor; [|apply IH]. rewrite dedup_keys_In. simpl. tauto.
Qed.

Definition is_index_key (k : string) : bool :=
  match array_index k with None => false | Some _ => true end.

Lemma index_pairs_snd (ks : list string) :
  map snd (index_pairs ks) = filter is_index_key ks.
Proof.
  induction ks as [|k ks IH]; simpl; [reflexivity|].
  unfold is_index_key at 1. destruct (array_index k); simpl; rewrite IH;
    reflexivity.
Qed.

Lemma insert_idx_perm (p : N * string) (l : list (N * string)) :
  Permutation (insert_idx p l) (p :: l).
Proof.
  induction l as [|q l IH]; simpl; [reflexivity|].
  destruct (N.leb (fst p) (fst q)); [reflexivity|].
  rewrite IH. apply perm_swap.
Qed.

Lemma sort_idx_perm (l : list (N * string)) : Permutation (sort_idx l) l.
Proof.
  induction l as [|p l IH]; simpl; [reflexivity|].
  rewrite insert_idx_perm, IH. reflexivity.
Qed.

Lemma filter_split_perm {A} (f : A -> bool) (l : list A) :
  Permutation (filter f l ++ filter (fun x => negb (f x)) l)%list l.
Proof.
  induction l as [|x l IH]; simpl; [reflexivity|].
  destruct (f x); simpl.
  - constructor. exact IH.
  - rewrite <- Permutation_middle. constructor. exact IH.
Qed.

Lemma own_keys_perm (kvs : list (string * json)) :
  Permutation (own_keys kvs) (dedup_keys [] (map fst kvs)).
Proof.
  unfold own_keys.
  set (ks := dedup_keys [] (map fst kvs)).
  rewrite (Permutation_map snd (sort_idx_perm (index_pairs ks))).
  rewrite index_pairs_snd.
  rewrite <- (filter_split_perm is_index_key ks) at 3.
  apply Permutation_app_head. rewrite (filter_ext _ (fun x => negb (is_index_key x))).
  - reflexivity.
  - intros k. unfold is_index_key. destruct (array_index k); reflexivity.
Qed.

Lemma own_keys_In (kvs : list (string * json)) (k : string) :
  In k (own_keys kvs) <-> In k (map fst kvs).
Proof.
  split; intros H.
  - apply (Permutation_in _ (own_keys_perm kvs)), dedup_keys_In in H. tauto.
  - apply (Permutation_in _ (Permutation_sym (own_keys_perm kvs))).
    apply dedup_keys_In. simpl. tauto.
Qed.

Lemma index_string_inj (i j : nat) : index_string i = index_string j -> i = j.
Proof.
  unfold index_string. intros H.
  apply (f_equal NilEmpty.uint_of_string) in H. rewrite !NilEmpty.usu in H.
  injection H as H. apply Unsigned.to_uint_inj, H.
Qed.

Lemma map_inj_NoDup {A B} (f : A -> B) (l : list A) :
  (forall x y, f x = f y -> x = y) -> NoDup l -> NoDup (map f l).
Proof.
  intros Hf Hl. induction Hl as [|x l Hx Hl IH]; simpl; constructor; [|exact IH].
  intros Hin. apply in_map_iff in Hin as [y [Hy Hin]].
  apply Hf in Hy. subst y. contradiction.
Qed.

Lemma for_in_keys_NoDup (v : option json) : NoDup (for_in_keys v).
Proof.
  destruct v as [[| | | s | l | kvs]|]; simpl; try constructor.
  - apply map_inj_NoDup; [exact index_string_inj | apply seq_NoDup].
  - apply map_inj_NoDup; [exact index_string_inj | apply seq_NoDup].
  - apply (Permutation_NoDup (Permutation_sym (own_keys_perm kvs))).
    apply dedup_keys_NoDup.
Qed.

(** ** [getInstalledModules] *)

Lemma getInstalledModules_object (readFileSync : string -> string)
  (json_parse : string -> option json) (kvs : list (string * json)) :
  json_parse (readFileSync "package.json") = Some (JObject kvs) ->
  getInstalledModules readFileSync json_parse
  = Some (map (fun key => mkModule key false)
              (for_in_keys (lookup_last "dependencies" kvs))
          ++ map (fun key => mkModule key true)
              (for_in_keys (lookup_last "devDependencies" kvs)))%list.
Proof. intros H. unfold getInstalledModules. rewrite H. reflexivity. Qed.

(** The installed list has one production entry per key of
    [dependencies] and one development entry per key of
    [devDependencies], and nothing else. *)
Theorem getInstalledModules_members :
  forall (readFileSync : string -> string) (json_parse : string -> option json)
         (kvs deps devDeps : list (string * json)),
    json_parse (readFileSync "package.json") = Some (JObject kvs) ->
    lookup_last "dependencies" kvs = Some (JObject deps) ->
    lookup_last "devDependencies" kvs = Some (JObject devDeps) ->
    exists installed,
      getInstalledModules readFileSync json_parse = Some installed
      /\ forall m, In m installed
                   <-> (dev m = false /\ In (name m) (map fst deps))
                       \/ (dev m = true /\ In (name m) (map fst devDeps)).
Proof.
  intros readFileSync json_parse kvs deps devDeps Hp Hd Hdd.
  eexists. split; [apply (getInstalledModules_object _ _ _ Hp)|].
  intros [n d]. rewrite Hd, Hdd. cbn [for_in_keys name dev].
  rewrite in_app_iff, (in_map_iff (fun key => mkModule key false)),
    (in_map_iff (fun key => mkModule key true)).
  split.
  - intros [[k [Hk Hin]] | [k [Hk Hin]]]; injection Hk as <- <-;
      [left | right]; rewrite <- own_keys_In; auto.
  - intros [[-> Hin] | [-> Hin]]; rewrite <- own_keys_In in Hin;
      [left | right]; exists n; auto.
Qed.

Lemma getInstalledModules_members_witness :
  let kvs := [("name", JString "app");
              ("dependencies", JObject [("lodash", JString "^4")]);
              ("devDependencies", JObject [("mocha", JString "*")])] in
  exists installed,
    getInstalledModules (fun _ => EmptyString) (fun _ => Some (JObject kvs))
    = Some installed
    /\ forall m, In m installed
                 <-> (dev m = false /\ In (name m) ["lodash"])
                     \/ (dev m = true /\ In (name m) ["mocha"]).
Proof.
  intros kvs.
  exact (getInstalledModules_members (fun _ => EmptyString)
           (fun _ => Some (JObject kvs)) kvs [("lodash", JString "^4")]
           [("mocha", JString "*")] eq_refl eq_refl eq_refl).
Defined.

(** Whatever the manifest holds, the installed list lists the production
    entries first and the development entries after them, and no
    [(name, dev)] pair twice, even when a section repeats a key. *)
Theorem getInstalledModules_no_duplicates :
  forall (readFileSync : string -> string) (json_parse : string -> option json)
         (installed : list ModuleRef),
    getInstalledModules readFileSync json_parse = Some installed ->
    NoDup (map (fun m => (name m, dev m)) installed)
    /\ exists prod devs, installed = (prod ++ devs)%list
                         /\ Forall (fun m => dev m = false) prod
                         /\ Forall (fun m => dev m = true) devs.
Proof.
  intros readFileSync json_parse installed H.
  unfold getInstalledModules in H.
  destruct (json_parse _) as [content|]; [|discriminate].
  destruct (manifest_section content "dependencies") as [deps|]; [|discriminate].
  destruct (manifest_section content "devDependencies") as [devDeps|];
    [|discriminate].
  injection H as <-. split.
  - rewrite map_app, !map_map. simpl. apply NoDup_app.
    + apply map_inj_NoDup; [intros x y E; injection E; auto|].
      apply for_in_keys_NoDup.
    + apply map_inj_NoDup; [intros x y E; injection E; auto|].
      apply for_in_keys_NoDup.
    + intros a Ha Hb. apply in_map_iff in Ha as [x [Hx _]].
      apply in_map_iff in Hb as [y [Hy _]]. subst a. injection Hy. discriminate.
  - eexists. eexists. split; [reflexivity|].
    split; apply Forall_forall; intros m Hm; apply in_map_iff in Hm as [k [<- _]];
      reflexivity.
Qed.

Lemma getInstalledModules_no_duplicates_witness :
  let parse := fun _ : string => Some (JObject
                 [("dependencies", JObject [("a", JNull); ("a", JNull)]);
                  ("devDependencies", JObject [("a", JNull)])]) in
  getInstalledModules (fun _ => EmptyString) parse
  = Some [mkModule "a" false; mkModule "a" true]
  /\ NoDup (map (fun m => (name m, dev m)) [mkModule "a" false; mkModule "a" true]).
Proof.
  intros parse. split; [reflexivity|].
  apply (getInstalledModules_no_duplicates (fun _ => EmptyString) parse).
  reflexivity.
Defined.

(** Once [package.json] has been read ([readFileSync] stands for a
    successful read and returns its text), [getInstalledModules] throws
    exactly when that text is not valid JSON or is [null]; missing
    dependency sections are read as empty.  A failing read is outside this
    statement. *)
Theorem getInstalledModules_errors :
  forall (readFileSync : string -> string) (json_parse : string -> option json),
    (getInstalledModules readFileSync json_parse = None
     <-> json_parse (readFileSync "package.json") = None
         \/ json_parse (readFileSync "package.json") = Some JNull)
    /\ (forall kvs,
        json_parse (readFileSync "package.json") = Some (JObject kvs) ->
        lookup_last "dependencies" kvs = None ->
        lookup_last "devDependencies" kvs = None ->
        getInstalledModules readFileSync json_parse = Some []).
Proof.
  intros readFileSync json_parse. split.
  - unfold getInstalledModules.
    destruct (json_parse _) as [[| | | | |]|]; simpl;
      split; try discriminate; auto; intros [H|H]; discriminate.
  - intros kvs Hp Hd Hdd. rewrite (getInstalledModules_object _ _ _ Hp), Hd, Hdd.
    reflexivity.
Qed.

(** ** [deduplicate] and [getUsedModules] *)

Lemma spec_first_by_name_complete (f : nat) :
  forall l m, List.length l <= f -> In m l ->
  exists m', In m' (spec_first_by_name f l) /\ name m' = name m.
Proof.
  induction f as [|f IH]; intros l m Hl Hm.
  - destruct l; [destruct Hm | simpl in Hl; lia].
  - destruct l as [|x r]; [destruct Hm|]. simpl.
    destruct (String.eqb_spec (name m) (name x)) as [E|E].
    + exists x. split; [left; reflexivity | symmetry; exact E].
    + destruct Hm as [<-|Hm]; [congruence|].
      destruct (IH (filter (fun m' => negb (String.eqb (name m') (name x))) r) m)
        as [m' [H1 H2]].
      * simpl in Hl. pose proof (filter_length_le
          (fun m' => negb (String.eqb (name m') (name x))) r). lia.
      * apply filter_In. split; [exact Hm|].
        apply negb_true_iff, String.eqb_neq, E.
      * exists m'. split; [right; exact H1 | exact H2].
Qed.

Lemma keep_first_props (l : list ModuleRef) :
  (forall m, In m (keep_first_by_name l) -> In m l)
  /\ NoDup (map name (keep_first_by_name l))
  /\ (forall m, In m l -> exists m', In m' (keep_first_by_name l)
                                     /\ name m' = name m).
Proof.
  destruct (spec_first_by_name_props (List.length l) l) as [H1 H2].
  split; [exact H1 | split; [exact H2|]].
  intros m Hm. apply spec_first_by_name_complete; [lia | exact Hm].
Qed.

Lemma deduplicate_split (l : list ModuleRef) :
  deduplicate l = (keep_first_by_name (filter dev l)
                   ++ keep_first_by_name (filter (fun m => negb (dev m)) l))%list.
Proof.
  unfold deduplicate. simpl. rewrite !deduplicateSimilarModules_spec.
  reflexivity.
Qed.

Lemma module_eq (m m' : ModuleRef) :
  name m = name m' -> dev m = dev m' -> m = m'.
Proof. destruct m, m'; simpl; intros -> ->; reflexivity. Qed.

(** Deduplication loses no module and invents none: a module is in the
    output exactly when it is in the input. *)
Theorem deduplicate_same_members :
  forall (l : list ModuleRef) (m : ModuleRef),
    In m (deduplicate l) <-> In m l.
Proof.
  intros l m. rewrite deduplicate_split, in_app_iff.
  destruct (keep_first_props (filter dev l)) as [A1 [_ A3]].
  destruct (keep_first_props (filter (fun m => negb (dev m)) l)) as [B1 [_ B3]].
  split.
  - intros [H|H]; [apply A1 in H | apply B1 in H]; apply filter_In in H; tauto.
  - intros H. destruct (dev m) eqn:D.
    + left. destruct (A3 m) as [m' [H1 H2]]; [apply filter_In; auto|].
      replace m with m'; [exact H1|].
      apply module_eq; [exact H2|]. apply A1, filter_In in H1.
      rewrite D. tauto.
    + right. destruct (B3 m) as [m' [H1 H2]];
        [apply filter_In; rewrite D; auto|].
      replace m with m'; [exact H1|].
      apply module_eq; [exact H2|]. apply B1, filter_In in H1.
      destruct H1 as [_ H1]. rewrite D. apply negb_true_iff, H1.
Qed.

Lemma spec_first_by_name_nodup (f : nat) :
  forall l, NoDup (map name l) -> spec_first_by_name f l = firstn f l.
Proof.
  induction f as [|f IH]; intros l Hl; [destruct l; reflexivity|].
  destruct l as [|x r]; [reflexivity|]. simpl in *.
  inversion Hl as [|? ? Hx Hr]; subst.
  assert (E : filter (fun m' => negb (String.eqb (name m') (name x))) r = r).
  { clear IH Hl Hr. induction r as [|y r IHr]; [reflexivity|]. simpl in *.
    destruct (String.eqb_spec (name y) (name x)) as [E|E];
      [exfalso; apply Hx; left; exact E|].
    simpl. rewrite IHr; [reflexivity|tauto]. }
  rewrite E, IH by exact Hr. reflexivity.
Qed.

Lemma keep_first_nodup (l : list ModuleRef) :
  NoDup (map name l) -> keep_first_by_name l = l.
Proof.
  intros H. unfold keep_first_by_name. rewrite spec_first_by_name_nodup by exact H.
  apply firstn_all.
Qed.

Lemma filter_all {A} (f : A -> bool) (l : list A) :
  (forall x, In x l -> f x = true) -> filter f l = l.
Proof.
  induction l as [|x l IH]; intros H; simpl; [reflexivity|].
  rewrite H by (left; reflexivity). rewrite IH by (intros y Hy; apply H; right; exact Hy).
  reflexivity.
Qed.

Lemma filter_none {A} (f : A -> bool) (l : list A) :
  (forall x, In x l -> f x = false) -> filter f l = [].
Proof.
  induction l as [|x l IH]; intros H; simpl; [reflexivity|].
  rewrite H by (left; reflexivity). apply IH. intros y Hy; apply H; right; exact Hy.
Qed.

(** Deduplicating twice is deduplicating once. *)
Theorem deduplicate_idempotent :
  forall l : list ModuleRef, deduplicate (deduplicate l) = deduplicate l.
Proof.
  intros l. rewrite (deduplicate_split l).
  set (K1 := keep_first_by_name (filter dev l)).
  set (K2 := keep_first_by_name (filter (fun m => negb (dev m)) l)).
  destruct (keep_first_props (filter dev l)) as [A1 [A2 _]].
  destruct (keep_first_props (filter (fun m => negb (dev m)) l)) as [B1 [B2 _]].
  fold K1 in A1, A2. fold K2 in B1, B2.
  assert (D1 : forall m, In m K1 -> dev m = true).
  { intros m Hm. apply A1, filter_In in Hm. tauto. }
  assert (D2 : forall m, In m K2 -> dev m = false).
  { intros m Hm. apply B1, filter_In in Hm. apply negb_true_iff. tauto. }
  rewrite deduplicate_split, !filter_app.
  rewrite (filter_all dev K1 D1), (filter_none dev K2 D2).
  rewrite (filter_none (fun m => negb (dev m)) K1)
    by (intros m Hm; rewrite D1 by exact Hm; reflexivity).
  rewrite (filter_all (fun m => negb (dev m)) K2)
    by (intros m Hm; rewrite D2 by exact Hm; reflexivity).
  rewrite !app_nil_r. simpl.
  rewrite (keep_first_nodup K1 A2), (keep_first_nodup K2 B2). reflexivity.
Qed.

(** A used module is a name extracted from one of the globbed files,
    marked [dev] exactly when that file is a test file, and every such
    pair is listed; no [(name, dev)] pair is listed twice. *)
Theorem getUsedModules_spec :
  forall (glob_sync : string -> list string -> list string)
         (readFileSync : string -> string),
    (forall m, In m (getUsedModules glob_sync readFileSync)
       <-> exists file, In file (glob_sync "**/*.js" ["node_modules/**/*"])
                        /\ In (name m) (getModulesFromFile readFileSync file)
                        /\ dev m = isTestFile file)
    /\ NoDup (map (fun m => (name m, dev m)) (getUsedModules glob_sync readFileSync)).
Proof.
  intros glob_sync readFileSync. split.
  - intros m. unfold getUsedModules. rewrite deduplicate_same_members, in_flat_map.
    unfold getFiles. split.
    + intros [file [Hf Hm]]. apply in_map_iff in Hm as [n [<- Hn]].
      exists file. simpl. auto.
    + intros [file [Hf [Hn Hd]]]. exists file. split; [exact Hf|].
      apply in_map_iff. exists (name m). split; [|exact Hn].
      apply module_eq; simpl; auto.
  - unfold getUsedModules. set (l := flat_map _ _).
    rewrite deduplicate_split, map_app. apply NoDup_app.
    + apply (NoDup_map_inv fst). rewrite map_map. apply keep_first_props.
    + apply (NoDup_map_inv fst). rewrite map_map. apply keep_first_props.
    + intros [x d] Ha Hb. apply in_map_iff in Ha as [m1 [E1 H1]].
      apply in_map_iff in Hb as [m2 [E2 H2]].
      apply (proj1 (keep_first_props _)), filter_In in H1.
      apply (proj1 (keep_first_props _)), filter_In in H2.
      injection E1 as _ E1. injection E2 as _ E2. subst d.
      destruct H1 as [_ D1], H2 as [_ D2]. rewrite E2, D1 in D2. discriminate.
Qed.

(** ** Composition of [diff] *)

Definition absent_from (b : list ModuleRef) (m : ModuleRef) : bool :=
  Z.ltb (js_arr_indexOf (name m) (getNamesFromModules b)) 0.

Lemma absent_from_app (b c : list ModuleRef) (m : ModuleRef) :
  absent_from (b ++ c) m = absent_from b m && absent_from c m.
Proof.
  apply Bool.eq_iff_eq_true. unfold absent_from, getNamesFromModules.
  rewrite andb_true_iff, !js_arr_indexOf_neg, map_app, in_app_iff. tauto.
Qed.

Lemma filter_andb {A} (f g : A -> bool) (l : list A) :
  filter (fun x => f x && g x) l = filter g (filter f l).
Proof.
  induction l as [|x l IH]; simpl; [reflexivity|].
  destruct (f x); simpl; [destruct (g x); simpl; rewrite IH|]; auto.
Qed.

(** Removing the names of [b ++ c] is removing those of [b], then those of
    [c]; [diff] distributes over the concatenation of its first argument;
    nothing is removed by an empty list, and a list minus itself is
    empty. *)
Theorem diff_compose :
  forall a a' b c : list ModuleRef,
    diff a (b ++ c) = diff (diff a b) c
    /\ diff (a ++ a') b = (diff a b ++ diff a' b)%list
    /\ diff a [] = a
    /\ diff a a = [].
Proof.
  intros a a' b c. split; [|split; [|split]].
  - unfold diff. fold (absent_from (b ++ c)). fold (absent_from b).
    fold (absent_from c).
    rewrite (filter_ext _ (fun m => absent_from b m && absent_from c m))
      by apply absent_from_app.
    apply filter_andb.
  - unfold diff. apply filter_app.
  - unfold diff. simpl. apply filter_all. reflexivity.
  - unfold diff. apply filter_none. intros m Hm.
    apply Bool.not_true_iff_false. rewrite js_arr_indexOf_neg.
    intros H. apply H. apply in_map, Hm.
Qed.

(** ** [filterRegistryModules] *)

Lemma js_str_indexOf_zero (needle hay : string) :
  js_str_indexOf needle hay = 0%Z <-> String.prefix needle hay = true.
Proof.
  unfold js_str_indexOf. destruct hay as [|c hay].
  - destruct needle; simpl; split; intros H; try discriminate; auto.
  - cbn [String.index].
    destruct (String.prefix needle (String c hay)); [split; auto|].
    destruct (String.index 0 needle hay); split; intros H; try discriminate; lia.
Qed.

(** [filterRegistryModules] keeps an entry exactly when its name is not a
    built-in and does not start with [./]; the two filters can be run in
    either order, and running the whole filter twice changes nothing. *)
Theorem filterRegistryModules_spec :
  forall (isBuiltInModule : string -> bool) (modules : list ModuleRef),
    (forall m, In m (filterRegistryModules isBuiltInModule modules)
       <-> In m modules /\ isBuiltInModule (name m) = false
           /\ String.prefix "./" (name m) = false)
    /\ filterRegistryModules isBuiltInModule modules
       = removeBuiltInModules isBuiltInModule (removeLocalFiles modules)
    /\ filterRegistryModules isBuiltInModule
         (filterRegistryModules isBuiltInModule modules)
       = filterRegistryModules isBuiltInModule modules.
Proof.
  intros isb modules. split; [|split].
  - intros m. rewrite filterRegistryModules_In.
    rewrite <- (Bool.not_true_iff_false (String.prefix _ _)), <- js_str_indexOf_zero.
    tauto.
  - unfold filterRegistryModules, removeLocalFiles, removeBuiltInModules.
    rewrite <- !filter_andb. apply filter_ext. intros m. apply andb_comm.
  - unfold filterRegistryModules, removeLocalFiles, removeBuiltInModules.
    rewrite <- !filter_andb. apply filter_ext. intros m.
    destruct (isb (name m)), (Z.eqb _ 0); reflexivity.
Qed.

(** ** Extractor invariants *)

Lemma find_close_no_close (t a r : string) :
  find_close t = Some (a, r) -> no_close a = true.
Proof.
  revert a r. induction t as [|c t IH]; intros a r H; simpl in H; [discriminate|].
  destruct (Ascii.eqb c ")") eqn:E1; [injection H as <- _; reflexivity|].
  destruct (is_line_terminator c) eqn:E2; [discriminate|].
  destruct (find_close t) as [[a' r']|]; [|discriminate].
  injection H as <- _. simpl. rewrite E1, E2, (IH a' r' eq_refl). reflexivity.
Qed.

Lemma scan_shape (f : nat) (s x : string) :
  In x (scan f s) -> exists a, no_close a = true /\ x = require_open ++ a ++ ")".
Proof.
  revert s. induction f as [|f IH]; intros s H; [destruct H|].
  destruct s as [|c s']; [destruct H|].
  rewrite (scan_S f _ c s' eq_refl) in H.
  destruct (String.prefix _ _); [|exact (IH _ H)].
  destruct (find_close _) as [[a r]|] eqn:E; [|exact (IH _ H)].
  destruct H as [<-|H]; [|exact (IH _ H)].
  exists a. split; [exact (find_close_no_close _ _ _ E) | reflexivity].
Qed.

Lemma no_close_substring0 (t : string) (k : nat) :
  no_close t = true -> no_close (String.substring 0 k t) = true.
Proof.
  revert k. induction t as [|c t IH]; intros k H; destruct k; simpl in *; auto.
  apply andb_prop in H as [H1 H2]. rewrite H1, IH by exact H2. reflexivity.
Qed.

(** Every [require(...)] match of a file gives one candidate, none is
    dropped, and no candidate contains [)] or a line break; a file with
    no [require(] gives none. *)
Theorem getModulesFromFile_candidates :
  forall (readFileSync : string -> string) (path : string),
    List.length (getModulesFromFile readFileSync path)
    = List.length (all_matches (readFileSync path))
    /\ (forall s, In s (getModulesFromFile readFileSync path) -> no_close s = true)
    /\ (has_require (readFileSync path) = false ->
        getModulesFromFile readFileSync path = []).
Proof.
  intros rf path. unfold getModulesFromFile.
  rewrite getModulesFromContent_matches, push_valid_strings.
  split; [apply length_map | split].
  - intros s Hs. apply in_map_iff in Hs as [x [<- Hx]].
    apply scan_shape in Hx as [a [Ha ->]]. rewrite strip_match_call.
    destruct a as [|c t]; [reflexivity|]. simpl.
    simpl in Ha. apply andb_prop in Ha as [_ Ha].
    apply no_close_substring0, Ha.
  - intros H. rewrite all_matches_clean by exact H. reflexivity.
Qed.

Lemma getInstalledModules_errors_witness :
  getInstalledModules (fun _ => "{}") (fun _ => Some (JObject [])) = Some [].
Proof.
  apply (proj2 (getInstalledModules_errors (fun _ => "{}")
                  (fun _ => Some (JObject []))) []); reflexivity.
Defined.

Lemma getModulesFromFile_candidates_witness :
  getModulesFromFile (fun _ => "module.exports = 1;") "index.js" = [].
Proof.
  apply (proj2 (proj2 (getModulesFromFile_candidates
                         (fun _ => "module.exports = 1;") "index.js"))).
  vm_compute. reflexivity.
Defined.
